(** * Lossless lottery contract (smart-contracts/src/lib.rs)

    Shallow embedding of the NEAR contract [Contract]: its state, the
    [UnorderedMap] ledgers, the u128 arithmetic of [Balance], and the
    methods [new], [invest], [play], [total_investment],
    [total_player_deposit], [simulate_profit] and [select_winner].

    Rust's [+] on [u128] panics on overflow when overflow checks are on
    (debug builds, or [overflow-checks = true]) and wraps modulo 2^128
    otherwise (the default release profile); the build setting is the
    section variable [overflow_checks].  [StdRng::from_seed] followed by
    [gen_range(0..n)] comes from the [rand] crate, not from this
    repository; it is the section variable [gen_range_seeded]. *)

From Stdlib Require Import List String Arith NArith Lia Permutation.
Import ListNotations.
Open Scope N_scope.

(** ** Data model *)

Definition AccountId := string.
Definition Balance := N.

(** [2^128]: one past the largest [u128]. *)
Definition U128_LIMIT : N := 2 ^ 128.

(** A Rust call either returns or panics with a message. *)
Inductive Outcome (A : Type) : Type :=
| Ok (a : A)
| Panic (msg : string).
Arguments Ok {A} a.
Arguments Panic {A} msg.

(** [near_sdk::collections::UnorderedMap]: a vector of keys and a vector
    of values kept in the same order (one pair per key).  [insert]
    replaces the value of an existing key in place, otherwise it pushes
    the pair at the end. *)
Definition UnorderedMap := list (AccountId * Balance).

Fixpoint um_insert (m : UnorderedMap) (k : AccountId) (v : Balance)
  : UnorderedMap :=
  match m with
  | [] => [(k, v)]
  | (k', v') :: t =>
      if String.eqb k k' then (k, v) :: t else (k', v') :: um_insert t k v
  end.

Fixpoint um_get (m : UnorderedMap) (k : AccountId) : option Balance :=
  match m with
  | [] => None
  | (k', v') :: t => if String.eqb k k' then Some v' else um_get t k
  end.

Definition keys_as_vector (m : UnorderedMap) : list AccountId := map fst m.
Definition values_as_vector (m : UnorderedMap) : list Balance := map snd m.

Record Contract := mkContract {
  owner_id : AccountId;
  staking_contract : AccountId;
  investors : UnorderedMap;
  players : UnorderedMap;
  total_stake : Balance;
  min_deposit : Balance
}.

Definition set_investors (c : Contract) (m : UnorderedMap) : Contract :=
  mkContract c.(owner_id) c.(staking_contract) m c.(players)
             c.(total_stake) c.(min_deposit).
Definition set_players (c : Contract) (m : UnorderedMap) : Contract :=
  mkContract c.(owner_id) c.(staking_contract) c.(investors) m
             c.(total_stake) c.(min_deposit).
Definition set_total_stake (c : Contract) (t : Balance) : Contract :=
  mkContract c.(owner_id) c.(staking_contract) c.(investors) c.(players)
             t c.(min_deposit).

(** [Contract::new]: empty ledgers (prefixes [b"i"] and [b"p"]), zero
    stake. *)
Definition new (owner_id staking_contract : AccountId) (min_deposit : N)
  : Contract :=
  mkContract owner_id staking_contract [] [] 0 min_deposit.

(** Mathematical sum of a list of balances (no bound). *)
Definition list_sum (l : list N) : N := fold_right N.add 0 l.

(** ** The host ([near_sdk::env]) *)

(** What the runtime provides to one call. *)
Record Env := mkEnv {
  env_predecessor_account_id : AccountId;
  env_random_seed : list Byte.byte;
  env_prepaid_gas : N
}.

(** Host functions called by the contract, recorded in call order. *)
Inductive HostCall :=
| HC_predecessor_account_id
| HC_random_seed
| HC_prepaid_gas
| HC_promise_function_call (receiver : AccountId) (method : string)
    (args : N) (deposit : N) (gas : N).

Record World := mkWorld {
  contract : Contract;
  host_log : list HostCall
}.

(** A contract method: reads the call's [Env], threads the [World], and
    stops where it panics. *)
Definition M (A : Type) : Type := Env -> World -> Outcome A * World.

Definition ret {A} (a : A) : M A := fun _ w => (Ok a, w).
Definition bind {A B} (m : M A) (f : A -> M B) : M B :=
  fun e w =>
    match m e w with
    | (Ok a, w') => f a e w'
    | (Panic msg, w') => (Panic msg, w')
    end.
Definition panic {A} (msg : string) : M A := fun _ w => (Panic msg, w).
Definition lift {A} (o : Outcome A) : M A := fun _ w => (o, w).

Notation "x <- m ;; k" := (bind m (fun x => k))
  (at level 61, m at next level, right associativity).
Notation "m ;; k" := (bind m (fun _ => k))
  (at level 61, right associativity).

Definition get_contract : M Contract := fun _ w => (Ok w.(contract), w).
Definition put_contract (c : Contract) : M unit :=
  fun _ w => (Ok tt, mkWorld c w.(host_log)).
Definition host (h : HostCall) : M unit :=
  fun _ w => (Ok tt, mkWorld w.(contract) (w.(host_log) ++ [h])).

(** [env::predecessor_account_id()], [env::random_seed()],
    [env::prepaid_gas()]. *)
Definition predecessor_account_id : M AccountId :=
  host HC_predecessor_account_id;; fun e w => (Ok e.(env_predecessor_account_id), w).
Definition random_seed : M (list Byte.byte) :=
  host HC_random_seed;; fun e w => (Ok e.(env_random_seed), w).
Definition prepaid_gas : M N :=
  host HC_prepaid_gas;; fun e w => (Ok e.(env_prepaid_gas), w).

(** [assert!(cond, msg)]. *)
Definition rust_assert (b : bool) (msg : string) : M unit :=
  if b then ret tt else panic msg.

(** ** Sample calls *)

Definition env_A : Env := mkEnv "alice.testnet"%string [] 300000000000000.
Definition env_B : Env := mkEnv "bob.testnet"%string [] 300000000000000.
Definition fresh_world : World :=
  mkWorld (new "owner.testnet"%string "staking.testnet"%string 1000000) [].

(** A world whose stake is the largest [u128]. *)
Definition stake_full_world : World :=
  mkWorld (set_total_stake fresh_world.(contract) (U128_LIMIT - 1)) [].

Definition calls_AB : list (Env * N) := [(env_A, 100); (env_B, 200)].
Definition calls_AA : list (Env * N) := [(env_A, 100); (env_A, 100)].
Definition calls_half_half : list (Env * N) :=
  [(env_A, 2 ^ 127); (env_B, 2 ^ 127)].

(** A stand-in for the [rand] sampler in concrete runs: first seed byte
    modulo [n]. *)
Definition sample_gen_range (seed : list Byte.byte) (n : nat) : nat :=
  match seed with
  | b :: _ => Nat.modulo (Byte.to_nat b) n
  | [] => 0%nat
  end.

(** ** Contract methods *)

Section Contract_methods.

(** [true] when the crate is built with Rust overflow checks. *)
Variable overflow_checks : bool.

(** [StdRng::from_seed(seed).gen_range(0..n)] of the [rand] crate. *)
Variable gen_range_seeded : list Byte.byte -> nat -> nat.

(** [a + b] on [u128]. *)
Definition u128_add (a b : N) : Outcome N :=
  if overflow_checks then
    if a + b <? U128_LIMIT then Ok (a + b)
    else Panic "attempt to add with overflow"
  else Ok ((a + b) mod U128_LIMIT).

(** [Iterator::sum] on [u128]: a left fold of [+] from [0]. *)
Fixpoint u128_sum_from (acc : N) (l : list N) : Outcome N :=
  match l with
  | [] => Ok acc
  | x :: t =>
      match u128_add acc x with
      | Ok acc' => u128_sum_from acc' t
      | Panic msg => Panic msg
      end
  end.

Definition u128_sum (l : list N) : Outcome N := u128_sum_from 0 l.

Definition promise_function_call (receiver : AccountId) (method : string)
  (args deposit gas : N) : M unit :=
  host (HC_promise_function_call receiver method args deposit gas).

(** [pub fn invest(&mut self, amount: U128)] *)
Definition invest (amount : N) : M unit :=
  investor <- predecessor_account_id;;
  let investment_amount := amount in
  c <- get_contract;;
  put_contract (set_investors c (um_insert c.(investors) investor investment_amount));;
  c <- get_contract;;
  t <- lift (u128_add c.(total_stake) investment_amount);;
  put_contract (set_total_stake c t);;
  c <- get_contract;;
  g <- prepaid_gas;;
  promise_function_call c.(staking_contract) "stake" amount 0 (g / 2).

(** [pub fn play(&mut self, amount: U128)] *)
Definition play (amount : N) : M unit :=
  player <- predecessor_account_id;;
  let play_amount := amount in
  c <- get_contract;;
  rust_assert (c.(min_deposit) <=? play_amount) "Deposit too low";;
  c <- get_contract;;
  put_contract (set_players c (um_insert c.(players) player play_amount)).

(** [pub fn total_investment(&self) -> Balance] *)
Definition total_investment (c : Contract) : Outcome Balance :=
  u128_sum (values_as_vector c.(investors)).

(** [fn total_player_deposit(&self) -> Balance] *)
Definition total_player_deposit (c : Contract) : Outcome Balance :=
  u128_sum (values_as_vector c.(players)).

(** [fn simulate_profit(&self) -> Balance] *)
Definition simulate_profit (c : Contract) : Balance :=
  c.(total_stake) / 10.

(** [seed[..k].copy_from_slice(&src[..k])]: the first [k] bytes of [dst]
    replaced by those of [src]. *)
Definition copy_prefix (dst src : list Byte.byte) (k : nat) : list Byte.byte :=
  firstn k src ++ skipn k dst.

(** The block building [seed_array] from [env::random_seed()]. *)
Definition seed_array_of (random_seed : list Byte.byte) : list Byte.byte :=
  let seed := repeat Byte.x00 32%nat in
  let bytes_to_copy := Nat.min (List.length random_seed) 32 in
  copy_prefix seed random_seed bytes_to_copy.

(** [fn select_winner(&self) -> AccountId] *)
Definition select_winner : M AccountId :=
  c <- get_contract;;
  let players := keys_as_vector c.(players) in
  rust_assert (negb (match players with [] => true | _ => false end))
    "No players to select a winner from";;
  rs <- random_seed;;
  let seed_array := seed_array_of rs in
  let winner_index := gen_range_seeded seed_array (List.length players) in
  match nth_error players winner_index with
  | Some w => ret w
  | None => panic "index out of bounds"
  end.

(** A block of [invest] transactions, each with its own [Env], stopping
    at the first panic. *)
Fixpoint run_invests (calls : list (Env * N)) (w : World) : Outcome unit * World :=
  match calls with
  | [] => (Ok tt, w)
  | (e, a) :: t =>
      match invest a e w with
      | (Ok _, w') => run_invests t w'
      | (Panic msg, w') => (Panic msg, w')
      end
  end.

(** The value [insert] replaces (0 when the key is new). *)
Definition um_old (m : UnorderedMap) (k : AccountId) : N :=
  match um_get m k with Some x => x | None => 0 end.

(** The callers of a block of calls. *)
Definition callers (calls : list (Env * N)) : list AccountId :=
  map (fun c => (fst c).(env_predecessor_account_id)) calls.

(** ** Arithmetic of [u128] sums *)

Lemma U128_LIMIT_nz : U128_LIMIT <> 0.
Proof. unfold U128_LIMIT. apply N.pow_nonzero. lia. Qed.

Lemma u128_sum_from_checked (acc : N) (l : list N) :
  overflow_checks = true -> acc < U128_LIMIT ->
  u128_sum_from acc l =
    if acc + list_sum l <? U128_LIMIT then Ok (acc + list_sum l)
    else Panic "attempt to add with overflow".
Proof.
  intros Hoc. revert acc. induction l as [|x t IH]; intros acc Hacc; simpl.
  - rewrite N.add_0_r. apply N.ltb_lt in Hacc. now rewrite Hacc.
  - unfold u128_add. rewrite Hoc.
    destruct (N.ltb_spec (acc + x) U128_LIMIT) as [H|H].
    + rewrite IH by exact H. now rewrite N.add_assoc.
    + destruct (N.ltb_spec (acc + (x + list_sum t)) U128_LIMIT); [lia|reflexivity].
Qed.

Lemma u128_sum_from_wrapping (acc : N) (l : list N) :
  overflow_checks = false -> acc < U128_LIMIT ->
  u128_sum_from acc l = Ok ((acc + list_sum l) mod U128_LIMIT).
Proof.
  intros Hoc. pose proof U128_LIMIT_nz as Hnz.
  revert acc. induction l as [|x t IH]; intros acc Hacc; simpl.
  - rewrite N.add_0_r, N.mod_small by exact Hacc. reflexivity.
  - unfold u128_add. rewrite Hoc.
    rewrite IH by (apply N.mod_lt; exact Hnz).
    rewrite N.Div0.add_mod_idemp_l. now rewrite N.add_assoc.
Qed.

Lemma u128_sum_exact (l : list N) :
  list_sum l < U128_LIMIT -> u128_sum l = Ok (list_sum l).
Proof.
  intros H. pose proof U128_LIMIT_nz as Hnz. unfold u128_sum.
  assert (H0 : 0 < U128_LIMIT) by lia.
  destruct overflow_checks eqn:Hoc.
  - rewrite u128_sum_from_checked by assumption.
    rewrite N.add_0_l. apply N.ltb_lt in H. now rewrite H.
  - rewrite u128_sum_from_wrapping by assumption.
    now rewrite N.add_0_l, N.mod_small by exact H.
Qed.

Lemma list_sum_app (l1 l2 : list N) :
  list_sum (l1 ++ l2) = list_sum l1 + list_sum l2.
Proof. induction l1; simpl; lia. Qed.

Lemma list_sum_perm (l1 l2 : list N) :
  Permutation l1 l2 -> list_sum l1 = list_sum l2.
Proof. induction 1; simpl; lia. Qed.

Lemma u128_sum_perm (l1 l2 : list N) :
  Permutation l1 l2 -> u128_sum l1 = u128_sum l2.
Proof.
  intros P. pose proof U128_LIMIT_nz as Hnz. unfold u128_sum.
  assert (H0 : 0 < U128_LIMIT) by lia.
  destruct overflow_checks eqn:Hoc.
  - rewrite !u128_sum_from_checked by assumption.
    now rewrite (list_sum_perm _ _ P).
  - rewrite !u128_sum_from_wrapping by assumption.
    now rewrite (list_sum_perm _ _ P).
Qed.

Lemma u128_add_exact (a b : N) :
  a + b < U128_LIMIT -> u128_add a b = Ok (a + b).
Proof.
  intros H. unfold u128_add. destruct overflow_checks.
  - apply N.ltb_lt in H. now rewrite H.
  - now rewrite N.mod_small by exact H.
Qed.

(** ** The ledger map *)

Lemma um_insert_sum (m : UnorderedMap) (k : AccountId) (v : N) :
  list_sum (values_as_vector (um_insert m k v)) + um_old m k =
  list_sum (values_as_vector m) + v.
Proof.
  unfold um_old, values_as_vector.
  induction m as [|[k' v'] t IH]; simpl.
  - lia.
  - destruct (String.eqb k k'); simpl; lia.
Qed.

Lemma um_get_notin (m : UnorderedMap) (k : AccountId) :
  ~ In k (keys_as_vector m) -> um_get m k = None.
Proof.
  unfold keys_as_vector. induction m as [|[k' v'] t IH]; simpl; intros Hn.
  - reflexivity.
  - destruct (String.eqb_spec k k') as [->|Hne]; [tauto|].
    apply IH. tauto.
Qed.

Lemma um_insert_keys_notin (m : UnorderedMap) (k : AccountId) (v : N) :
  ~ In k (keys_as_vector m) ->
  keys_as_vector (um_insert m k v) = keys_as_vector m ++ [k].
Proof.
  unfold keys_as_vector. induction m as [|[k' v'] t IH]; simpl; intros Hn.
  - reflexivity.
  - destruct (String.eqb_spec k k') as [->|Hne]; [tauto|].
    simpl. f_equal. apply IH. tauto.
Qed.

Lemma um_get_insert (m : UnorderedMap) (k : AccountId) (v : N) :
  um_get (um_insert m k v) k = Some v.
Proof.
  induction m as [|[k' v'] t IH]; simpl.
  - now rewrite String.eqb_refl.
  - destruct (String.eqb_spec k k') as [->|Hne]; simpl.
    + now rewrite String.eqb_refl.
    + apply String.eqb_neq in Hne. now rewrite Hne.
Qed.

(** ** Method equations *)

Lemma invest_eq (a : N) (e : Env) (w : World) :
  invest a e w =
  let c := w.(contract) in
  let inv := um_insert c.(investors) e.(env_predecessor_account_id) a in
  match u128_add c.(total_stake) a with
  | Ok t =>
      (Ok tt, mkWorld (set_total_stake (set_investors c inv) t)
                (w.(host_log) ++ [HC_predecessor_account_id; HC_prepaid_gas;
                   HC_promise_function_call c.(staking_contract) "stake" a 0
                     (e.(env_prepaid_gas) / 2)]))
  | Panic msg =>
      (Panic msg, mkWorld (set_investors c inv)
                    (w.(host_log) ++ [HC_predecessor_account_id]))
  end.
Proof.
  destruct w as [c log]. unfold invest. cbn.
  destruct (u128_add (total_stake c) a); cbn; [|reflexivity].
  unfold promise_function_call, host. cbn. now rewrite <- !app_assoc.
Qed.

Lemma play_eq (a : N) (e : Env) (w : World) :
  play a e w =
  let c := w.(contract) in
  let log := w.(host_log) ++ [HC_predecessor_account_id] in
  if c.(min_deposit) <=? a then
    (Ok tt, mkWorld (set_players c (um_insert c.(players) e.(env_predecessor_account_id) a)) log)
  else (Panic "Deposit too low", mkWorld c log).
Proof.
  destruct w as [c log]. unfold play. cbn.
  destruct (min_deposit c <=? a); reflexivity.
Qed.

(** ** Blocks of [invest] calls *)

Lemma invest_ok_step (a : N) (e : Env) (w : World) :
  w.(contract).(total_stake) + a < U128_LIMIT ->
  invest a e w =
  (Ok tt, mkWorld
     (set_total_stake
        (set_investors w.(contract)
           (um_insert w.(contract).(investors) e.(env_predecessor_account_id) a))
        (w.(contract).(total_stake) + a))
     (w.(host_log) ++ [HC_predecessor_account_id; HC_prepaid_gas;
        HC_promise_function_call w.(contract).(staking_contract) "stake" a 0
          (e.(env_prepaid_gas) / 2)])).
Proof.
  intros H. rewrite invest_eq. cbv zeta. now rewrite u128_add_exact by exact H.
Qed.

Lemma run_invests_stake (calls : list (Env * N)) (w w' : World) :
  run_invests calls w = (Ok tt, w') ->
  w.(contract).(total_stake) + list_sum (map snd calls) < U128_LIMIT ->
  list_sum (values_as_vector w.(contract).(investors)) <= w.(contract).(total_stake) ->
  w'.(contract).(total_stake) = w.(contract).(total_stake) + list_sum (map snd calls) /\
  list_sum (values_as_vector w'.(contract).(investors)) <= w'.(contract).(total_stake).
Proof.
  revert w. induction calls as [|[e a] t IH]; intros w Hrun Hlim Hle; simpl in *.
  - inversion Hrun; subst. split; [lia|exact Hle].
  - rewrite invest_ok_step in Hrun by lia.
    destruct (IH _ Hrun) as [H1 H2]; simpl.
    + lia.
    + pose proof (um_insert_sum (investors (contract w))
                    (env_predecessor_account_id e) a). lia.
    + simpl in H1. split; [lia|exact H2].
Qed.

Lemma run_invests_distinct (calls : list (Env * N)) (w w' : World) :
  run_invests calls w = (Ok tt, w') ->
  w.(contract).(total_stake) + list_sum (map snd calls) < U128_LIMIT ->
  list_sum (values_as_vector w.(contract).(investors)) = w.(contract).(total_stake) ->
  NoDup (callers calls) ->
  (forall x, In x (callers calls) -> ~ In x (keys_as_vector w.(contract).(investors))) ->
  list_sum (values_as_vector w'.(contract).(investors)) = w'.(contract).(total_stake).
Proof.
  revert w. induction calls as [|[e a] t IH]; intros w Hrun Hlim Heq Hnd Hout;
    simpl in *.
  - inversion Hrun; subst. exact Heq.
  - rewrite invest_ok_step in Hrun by lia.
    inversion Hnd as [|? ? Hnin Hnd']; subst.
    assert (Hk : ~ In (env_predecessor_account_id e)
                    (keys_as_vector (investors (contract w)))) by auto.
    apply (IH _ Hrun); simpl.
    + lia.
    + pose proof (um_insert_sum (investors (contract w))
                    (env_predecessor_account_id e) a) as Hs.
      unfold um_old in Hs. rewrite um_get_notin in Hs by exact Hk. lia.
    + exact Hnd'.
    + intros x Hx. rewrite um_insert_keys_notin by exact Hk.
      rewrite in_app_iff. intros [Hin|Hin].
      * exact (Hout x (or_intror Hx) Hin).
      * destruct Hin as [<-|[]]. exact (Hnin Hx).
Qed.

(** [C1] (amended).  Starting from the empty ledger of [new], after a
    block of successful [invest] calls whose amounts sum below 2^128,
    [total_stake] is the sum of ALL invested amounts (every call adds its
    amount), while the investor map keeps only the latest amount per
    account; so [total_investment] returns a value at most [total_stake],
    equal to it when no account invests twice. *)
Theorem invest_sequence_total_stake (calls : list (Env * N)) (w w' : World) :
  w.(contract).(investors) = [] ->
  w.(contract).(total_stake) = 0 ->
  run_invests calls w = (Ok tt, w') ->
  list_sum (map snd calls) < U128_LIMIT ->
  w'.(contract).(total_stake) = list_sum (map snd calls) /\
  (exists t, total_investment w'.(contract) = Ok t /\ t <= w'.(contract).(total_stake)) /\
  (NoDup (callers calls) ->
   total_investment w'.(contract) = Ok w'.(contract).(total_stake)).
Proof.
  intros Hinv Hts Hrun Hlim.
  destruct (run_invests_stake calls w w' Hrun) as [H1 H2].
  - lia.
  - rewrite Hinv, Hts. simpl. lia.
  - split; [lia|]. unfold total_investment. split.
    + exists (list_sum (values_as_vector (investors (contract w')))).
      split; [apply u128_sum_exact; lia | exact H2].
    + intros Hnd.
      assert (He : list_sum (values_as_vector (investors (contract w'))) =
                   total_stake (contract w')).
      { apply (run_invests_distinct calls w w' Hrun).
        - lia.
        - rewrite Hinv, Hts. reflexivity.
        - exact Hnd.
        - intros x _. rewrite Hinv. simpl. tauto. }
      rewrite <- He. apply u128_sum_exact. lia.
Qed.

Lemma select_winner_eq (e : Env) (w : World) :
  select_winner e w =
  match keys_as_vector w.(contract).(players) with
  | [] => (Panic "No players to select a winner from", w)
  | ps =>
      let seed_array := seed_array_of e.(env_random_seed) in
      (match nth_error ps (gen_range_seeded seed_array (List.length ps)) with
       | Some x => Ok x
       | None => Panic "index out of bounds"
       end,
       mkWorld w.(contract) (w.(host_log) ++ [HC_random_seed]))
  end.
Proof.
  destruct w as [c log]. unfold select_winner. cbn.
  destruct (keys_as_vector (players c)) as [|p ps]; cbn; [reflexivity|].
  destruct (nth_error _ _); reflexivity.
Qed.

(** [C2] For every state, [play amount] with [amount < min_deposit]
    panics with "Deposit too low" (the InvalidDeposit failure) before any
    write: the contract (player map, investor map, [total_stake]) is left
    as it was.  With [amount >= min_deposit] it succeeds and stores
    [amount] as the caller's entry of the player map (insert or
    overwrite), touching nothing else. *)
Theorem play_min_deposit (amount : N) (e : Env) (w : World) :
  (amount < w.(contract).(min_deposit) ->
     fst (play amount e w) = Panic "Deposit too low" /\
     (snd (play amount e w)).(contract) = w.(contract)) /\
  (w.(contract).(min_deposit) <= amount ->
     fst (play amount e w) = Ok tt /\
     (snd (play amount e w)).(contract).(players) =
       um_insert w.(contract).(players) e.(env_predecessor_account_id) amount /\
     um_get (snd (play amount e w)).(contract).(players)
       e.(env_predecessor_account_id) = Some amount /\
     (snd (play amount e w)).(contract).(investors) = w.(contract).(investors) /\
     (snd (play amount e w)).(contract).(total_stake) = w.(contract).(total_stake)).
Proof.
  rewrite play_eq. cbv zeta. split; intros H.
  - destruct (N.leb_spec (min_deposit (contract w)) amount); [lia|].
    split; reflexivity.
  - apply N.leb_le in H. rewrite H. cbn.
    repeat split. apply um_get_insert.
Qed.

(** [C3] For every state whose player map is empty, [select_winner]
    panics with "No players to select a winner from" (the NoPlayers
    failure) and leaves the world as it was: in particular no
    [env::random_seed] call is made. *)
Theorem select_winner_no_players (e : Env) (w : World) :
  w.(contract).(players) = [] ->
  select_winner e w = (Panic "No players to select a winner from", w).
Proof.
  intros H. rewrite select_winner_eq. unfold keys_as_vector. now rewrite H.
Qed.

(** [C4] [select_winner] is deterministic: its result depends only on
    the player key sequence and the entropy bytes, so two calls with the
    same players and the same entropy return the same account (whatever
    the caller, gas, investors, stake or host log). *)
Theorem select_winner_deterministic (e1 e2 : Env) (w1 w2 : World) :
  keys_as_vector w1.(contract).(players) = keys_as_vector w2.(contract).(players) ->
  e1.(env_random_seed) = e2.(env_random_seed) ->
  fst (select_winner e1 w1) = fst (select_winner e2 w2).
Proof.
  intros Hp Hr. rewrite !select_winner_eq, <- Hp, <- Hr.
  destruct (keys_as_vector (players (contract w1))); reflexivity.
Qed.

(** [C6] [simulate_profit] is the floor of [total_stake / 10]:
    [10 * p <= total_stake < 10 * p + 10]; with [total_stake = 955] it
    returns [95]. *)
Theorem simulate_profit_floor (c : Contract) :
  10 * simulate_profit c <= c.(total_stake) < 10 * simulate_profit c + 10 /\
  (c.(total_stake) = 955 -> simulate_profit c = 95).
Proof.
  unfold simulate_profit. split.
  - pose proof (N.div_mod (total_stake c) 10 ltac:(lia)) as Hd.
    pose proof (N.mod_lt (total_stake c) 10 ltac:(lia)) as Hm.
    set (q := total_stake c / 10) in *. set (r := total_stake c mod 10) in *.
    lia.
  - intros H. rewrite H. reflexivity.
Qed.

(** [C10] [select_winner] never writes the contract: on success and on
    the "No players" panic alike, the investor map, the player map,
    [total_stake] and [min_deposit] are unchanged, so every player stays
    in the player map for later draws. *)
Theorem select_winner_frame (e : Env) (w : World) :
  (snd (select_winner e w)).(contract) = w.(contract).
Proof.
  rewrite select_winner_eq. destruct (keys_as_vector _); reflexivity.
Qed.

(** [C8] The seed built by [select_winner] has 32 bytes: its first
    [min(len, 32)] bytes are those of [env::random_seed()] and the rest
    are zero bytes; bytes of the entropy past the 32nd never matter (two
    entropy values agreeing on their first 32 bytes give the same draw),
    and a draw over a non-empty player map requests the entropy exactly
    once. *)
Theorem seed_array_padding (rs : list Byte.byte) :
  List.length (seed_array_of rs) = 32%nat /\
  (forall i, (i < Nat.min (List.length rs) 32)%nat ->
     nth_error (seed_array_of rs) i = nth_error rs i) /\
  (forall i, (List.length rs <= i < 32)%nat ->
     nth_error (seed_array_of rs) i = Some Byte.x00) /\
  (forall e1 e2 w,
     firstn 32 e1.(env_random_seed) = firstn 32 e2.(env_random_seed) ->
     select_winner e1 w = select_winner e2 w) /\
  (forall e w, w.(contract).(players) <> [] ->
     (snd (select_winner e w)).(host_log) = w.(host_log) ++ [HC_random_seed]).
Proof.
  assert (Hprefix : forall r, seed_array_of r = seed_array_of (firstn 32 r)).
  { intros r. unfold seed_array_of, copy_prefix.
    rewrite length_firstn, firstn_firstn.
    replace (Nat.min (Nat.min (Nat.min 32 (List.length r)) 32) 32)
      with (Nat.min (List.length r) 32) by lia.
    replace (Nat.min (Nat.min 32 (List.length r)) 32)
      with (Nat.min (List.length r) 32) by lia.
    reflexivity. }
  unfold seed_array_of, copy_prefix. repeat split.
  - rewrite length_app, length_firstn, length_skipn, repeat_length. lia.
  - intros i Hi. rewrite nth_error_app1 by (rewrite length_firstn; lia).
    rewrite nth_error_firstn.
    replace (Nat.ltb i (Nat.min (List.length rs) 32)) with true
      by (symmetry; apply Nat.ltb_lt; lia).
    reflexivity.
  - intros i Hi. rewrite nth_error_app2 by (rewrite length_firstn; lia).
    rewrite nth_error_skipn, length_firstn. apply nth_error_repeat. lia.
  - intros e1 e2 w Hf. rewrite !select_winner_eq.
    destruct (keys_as_vector _); [reflexivity|].
    cbv zeta. rewrite (Hprefix (env_random_seed e1)), Hf, <- Hprefix.
    reflexivity.
  - intros e w Hne. rewrite select_winner_eq. unfold keys_as_vector.
    destruct (players (contract w)); [congruence|]. reflexivity.
Qed.

(** [C5] (amended).  [invest] has no overflow check of its own and no
    ArithmeticOverflow error: when [total_stake + amount] exceeds [u128],
    a build with overflow checks panics at [+=] ("attempt to add with
    overflow") leaving [total_stake] unchanged, and a build without them
    succeeds and stores the wrapped value [(total_stake + amount) mod
    2^128]. *)
Theorem invest_overflow (a : N) (e : Env) (w : World) :
  U128_LIMIT <= w.(contract).(total_stake) + a ->
  (overflow_checks = true ->
     fst (invest a e w) = Panic "attempt to add with overflow" /\
     (snd (invest a e w)).(contract).(total_stake) = w.(contract).(total_stake)) /\
  (overflow_checks = false ->
     fst (invest a e w) = Ok tt /\
     (snd (invest a e w)).(contract).(total_stake) =
       (w.(contract).(total_stake) + a) mod U128_LIMIT).
Proof.
  intros H. rewrite invest_eq. cbv zeta. unfold u128_add.
  split; intros Hoc; rewrite Hoc.
  - destruct (N.ltb_spec (total_stake (contract w) + a) U128_LIMIT); [lia|].
    split; reflexivity.
  - split; reflexivity.
Qed.

(** [C7] (amended).  [total_investment] returns the sum of the investor
    balances whenever that sum is below 2^128; above it, [Iterator::sum]
    panics with overflow checks and returns the sum modulo 2^128 without
    them; its result never depends on the order of
    the investor map; [invest(100)] from A then [invest(200)] from B on a
    new contract give 300. *)
Theorem total_investment_sum (c c' : Contract) :
  (list_sum (values_as_vector c.(investors)) < U128_LIMIT ->
     total_investment c = Ok (list_sum (values_as_vector c.(investors)))) /\
  (Permutation c.(investors) c'.(investors) ->
     total_investment c = total_investment c') /\
  total_investment
    (snd (run_invests calls_AB fresh_world)).(contract) = Ok 300 /\
  (overflow_checks = true ->
   U128_LIMIT <= list_sum (values_as_vector c.(investors)) ->
     total_investment c = Panic "attempt to add with overflow") /\
  (overflow_checks = false ->
     total_investment c =
       Ok (list_sum (values_as_vector c.(investors)) mod U128_LIMIT)).
Proof.
  assert (H0 : 0 < U128_LIMIT) by (pose proof U128_LIMIT_nz; lia).
  split; [|split; [|split; [|split]]].
  - apply u128_sum_exact.
  - intros P. apply u128_sum_perm. unfold values_as_vector.
    now apply Permutation_map.
  - unfold total_investment, u128_sum, u128_sum_from, run_invests, calls_AB.
    rewrite invest_ok_step by (vm_compute; reflexivity).
    rewrite invest_ok_step by (vm_compute; reflexivity).
    unfold u128_add. destruct overflow_checks; vm_compute; reflexivity.
  - intros Hoc Hge. unfold total_investment, u128_sum.
    rewrite u128_sum_from_checked by assumption. rewrite N.add_0_l.
    destruct (N.ltb_spec (list_sum (values_as_vector (investors c))) U128_LIMIT);
      [lia|reflexivity].
  - intros Hoc. unfold total_investment, u128_sum.
    rewrite u128_sum_from_wrapping by assumption. now rewrite N.add_0_l.
Qed.

(** [C9] (amended).  [invest] does not reject a zero amount: on any state
    with a valid [u128] stake, [invest 0] succeeds, records [0] as the
    caller's investor balance, and leaves [total_stake] unchanged. *)
Theorem invest_zero_accepted (e : Env) (w : World) :
  w.(contract).(total_stake) < U128_LIMIT ->
  fst (invest 0 e w) = Ok tt /\
  um_get (snd (invest 0 e w)).(contract).(investors)
    e.(env_predecessor_account_id) = Some 0 /\
  (snd (invest 0 e w)).(contract).(total_stake) = w.(contract).(total_stake).
Proof.
  intros H. rewrite invest_ok_step by lia. cbn.
  split; [reflexivity|]. split; [apply um_get_insert|lia].
Qed.

(** ** Further properties of the ledger map *)

Lemma um_insert_keys_in (m : UnorderedMap) (k : AccountId) (v : N) :
  In k (keys_as_vector m) -> keys_as_vector (um_insert m k v) = keys_as_vector m.
Proof.
  unfold keys_as_vector. induction m as [|[k' v'] t IH]; simpl; intros Hin.
  - destruct Hin.
  - destruct (String.eqb_spec k k') as [->|Hne]; simpl; [reflexivity|].
    f_equal. apply IH. destruct Hin; [congruence|assumption].
Qed.

Lemma um_insert_insert (m : UnorderedMap) (k : AccountId) (a b : N) :
  um_insert (um_insert m k a) k b = um_insert m k b.
Proof.
  induction m as [|[k' v'] t IH]; simpl.
  - now rewrite String.eqb_refl.
  - destruct (String.eqb_spec k k') as [->|Hne]; simpl.
    + now rewrite String.eqb_refl.
    + apply String.eqb_neq in Hne. rewrite Hne. now rewrite IH.
Qed.

Lemma NoDup_snoc (l : list AccountId) (k : AccountId) :
  NoDup l -> ~ In k l -> NoDup (l ++ [k]).
Proof.
  intros Hnd Hn. apply (Permutation_NoDup (Permutation_cons_append l k)).
  now constructor.
Qed.

Lemma um_insert_nodup (m : UnorderedMap) (k : AccountId) (v : N) :
  NoDup (keys_as_vector m) -> NoDup (keys_as_vector (um_insert m k v)).
Proof.
  intros Hnd. destruct (in_dec String.string_dec k (keys_as_vector m)) as [Hin|Hn].
  - now rewrite um_insert_keys_in.
  - rewrite um_insert_keys_notin by exact Hn. now apply NoDup_snoc.
Qed.

(** [X4] [UnorderedMap] insert/lookup: after [insert(k, v)], looking up
    [k] gives [v] and every other key keeps its previous value (or
    absence). *)
Theorem um_insert_get (m : UnorderedMap) (k k' : AccountId) (v : N) :
  um_get (um_insert m k v) k' = if String.eqb k' k then Some v else um_get m k'.
Proof.
  induction m as [|[k1 v1] t IH]; simpl.
  - destruct (String.eqb k' k); reflexivity.
  - destruct (String.eqb_spec k k1) as [->|Hne]; simpl.
    + destruct (String.eqb k' k1); reflexivity.
    + rewrite IH.
      destruct (String.eqb_spec k' k1), (String.eqb_spec k' k); subst;
        congruence.
Qed.

(** [X5] [UnorderedMap::insert] keeps the key order: inserting an existing
    key leaves the key sequence as it was (the value is replaced in
    place), and a new key is appended at the end. *)
Theorem um_insert_key_order (m : UnorderedMap) (k : AccountId) (v : N) :
  (In k (keys_as_vector m) ->
     keys_as_vector (um_insert m k v) = keys_as_vector m) /\
  (~ In k (keys_as_vector m) ->
     keys_as_vector (um_insert m k v) = keys_as_vector m ++ [k]).
Proof.
  split; [apply um_insert_keys_in | apply um_insert_keys_notin].
Qed.

(** ** Further properties of the methods *)

(** [X1] A successful [invest] (no overflow of [total_stake + amount])
    stores [amount] as the caller's investor balance, adds it to
    [total_stake], and schedules exactly one cross-contract call:
    [stake(amount)] on [staking_contract] with deposit 0 and half of the
    prepaid gas, after reading the caller and the prepaid gas. *)
Theorem invest_success_effect (a : N) (e : Env) (w : World) :
  w.(contract).(total_stake) + a < U128_LIMIT ->
  fst (invest a e w) = Ok tt /\
  um_get (snd (invest a e w)).(contract).(investors)
    e.(env_predecessor_account_id) = Some a /\
  (snd (invest a e w)).(contract).(total_stake) = w.(contract).(total_stake) + a /\
  (snd (invest a e w)).(host_log) =
    w.(host_log) ++ [HC_predecessor_account_id; HC_prepaid_gas;
      HC_promise_function_call w.(contract).(staking_contract) "stake" a 0
        (e.(env_prepaid_gas) / 2)].
Proof.
  intros H. rewrite invest_ok_step by exact H. cbn.
  repeat split. apply um_get_insert.
Qed.

(** [X2] When [invest] panics (the [+=] overflow of a checked build), no
    [stake] call is scheduled: the only host call made is the read of the
    caller. *)
Theorem invest_panic_no_stake_call (a : N) (e : Env) (w : World) (msg : string) :
  fst (invest a e w) = Panic msg ->
  (snd (invest a e w)).(host_log) = w.(host_log) ++ [HC_predecessor_account_id].
Proof.
  rewrite invest_eq. cbv zeta.
  destruct (u128_add (total_stake (contract w)) a); cbn; [discriminate|].
  reflexivity.
Qed.

(** [X14] [invest] only writes the investor map and [total_stake]: the
    player map, [min_deposit], [owner_id] and [staking_contract] are left
    as they were, whether the call succeeds or panics. *)
Theorem invest_frame (a : N) (e : Env) (w : World) :
  (snd (invest a e w)).(contract).(players) = w.(contract).(players) /\
  (snd (invest a e w)).(contract).(min_deposit) = w.(contract).(min_deposit) /\
  (snd (invest a e w)).(contract).(owner_id) = w.(contract).(owner_id) /\
  (snd (invest a e w)).(contract).(staking_contract) =
    w.(contract).(staking_contract).
Proof.
  rewrite invest_eq. cbv zeta.
  destruct (u128_add (total_stake (contract w)) a); cbn; repeat split.
Qed.

(** [X6] Both ledgers keep one entry per account: if the investor keys
    and the player keys are duplicate-free before an [invest] or a
    [play], they are after it (whatever the outcome). *)
Theorem ledger_keys_distinct (a : N) (e : Env) (w : World) :
  NoDup (keys_as_vector w.(contract).(investors)) ->
  NoDup (keys_as_vector w.(contract).(players)) ->
  (NoDup (keys_as_vector (snd (invest a e w)).(contract).(investors)) /\
   NoDup (keys_as_vector (snd (invest a e w)).(contract).(players))) /\
  (NoDup (keys_as_vector (snd (play a e w)).(contract).(investors)) /\
   NoDup (keys_as_vector (snd (play a e w)).(contract).(players))).
Proof.
  intros Hi Hp. split.
  - rewrite invest_eq. cbv zeta.
    destruct (u128_add (total_stake (contract w)) a); cbn;
      split; try apply um_insert_nodup; assumption.
  - rewrite play_eq. cbv zeta.
    destruct (min_deposit (contract w) <=? a); cbn;
      split; try apply um_insert_nodup; assumption.
Qed.

(** [X7] In a build with overflow checks, a block of [invest] calls that
    all succeed from a zero stake leaves [total_stake] equal to the exact
    sum of the amounts: success itself rules out any wrap-around. *)
Theorem checked_invests_exact_stake (calls : list (Env * N)) (w w' : World) :
  overflow_checks = true ->
  w.(contract).(total_stake) = 0 ->
  run_invests calls w = (Ok tt, w') ->
  w'.(contract).(total_stake) = list_sum (map snd calls).
Proof.
  intros Hoc Hts. replace (list_sum (map snd calls))
    with (w.(contract).(total_stake) + list_sum (map snd calls)) by lia.
  clear Hts. revert w. induction calls as [|[e a] t IH]; intros w Hrun; simpl in *.
  - inversion Hrun; subst. lia.
  - rewrite invest_eq in Hrun. cbv zeta in Hrun. unfold u128_add in Hrun.
    rewrite Hoc in Hrun.
    destruct (N.ltb_spec (total_stake (contract w) + a) U128_LIMIT);
      [|discriminate].
    rewrite (IH _ Hrun). cbn. lia.
Qed.

(** [X8] Repeated [play] by one caller overwrites: a [play b] that is
    accepted ([b >= min_deposit]) leaves the contract as if the caller's
    earlier [play a] (accepted or not) had never happened. *)
Theorem play_overwrites (a b : N) (e : Env) (w : World) :
  w.(contract).(min_deposit) <= b ->
  (snd (play b e (snd (play a e w)))).(contract) = (snd (play b e w)).(contract).
Proof.
  intros Hb. apply N.leb_le in Hb.
  rewrite (play_eq b e (snd (play a e w))), (play_eq b e w), (play_eq a e w).
  cbv zeta. destruct (min_deposit (contract w) <=? a); cbn; rewrite Hb; cbn.
  - now rewrite um_insert_insert.
  - reflexivity.
Qed.

(** [X13] [play] never schedules a cross-contract call nor reads the
    entropy: its only host call is the read of the caller, whether it
    succeeds or panics. *)
Theorem play_host_calls (a : N) (e : Env) (w : World) :
  (snd (play a e w)).(host_log) = w.(host_log) ++ [HC_predecessor_account_id].
Proof.
  rewrite play_eq. cbv zeta. destruct (min_deposit (contract w) <=? a); reflexivity.
Qed.

(** [X9] The draw returns a current player: when the player map is not
    empty and the sampler's index is below the number of players (which
    [gen_range(0..n)] guarantees), [select_winner] succeeds with one of
    the player keys. *)
Theorem select_winner_returns_player (e : Env) (w : World) :
  keys_as_vector w.(contract).(players) <> [] ->
  (gen_range_seeded (seed_array_of e.(env_random_seed))
     (List.length (keys_as_vector w.(contract).(players))) <
   List.length (keys_as_vector w.(contract).(players)))%nat ->
  exists x, fst (select_winner e w) = Ok x /\
            In x (keys_as_vector w.(contract).(players)).
Proof.
  intros Hne Hlt. rewrite select_winner_eq.
  destruct (keys_as_vector (players (contract w))) as [|p ps] eqn:Hk;
    [congruence|].
  cbv zeta. cbn [fst].
  destruct (nth_error (p :: ps) _) as [x|] eqn:Hn.
  - exists x. split; [reflexivity|]. eapply nth_error_In. exact Hn.
  - apply nth_error_None in Hn. lia.
Qed.

(** [X10] A contract built by [new] stores the given [min_deposit]
    (what [test_initialization] checks), has total investment and total
    player deposit 0, a simulated profit of 0, and a draw on it panics
    with "No players to select a winner from". *)
Theorem new_contract_state (owner staking : AccountId) (min : N) (e : Env)
  (log : list HostCall) :
  (new owner staking min).(min_deposit) = min /\
  total_investment (new owner staking min) = Ok 0 /\
  total_player_deposit (new owner staking min) = Ok 0 /\
  simulate_profit (new owner staking min) = 0 /\
  select_winner e (mkWorld (new owner staking min) log) =
    (Panic "No players to select a winner from", mkWorld (new owner staking min) log).
Proof.
  repeat split.
Qed.

(** [X11] [total_player_deposit] returns the sum of the player balances
    whenever that sum is below 2^128, and its result never depends on the
    order of the player map. *)
Theorem total_player_deposit_sum (c c' : Contract) :
  (list_sum (values_as_vector c.(players)) < U128_LIMIT ->
     total_player_deposit c = Ok (list_sum (values_as_vector c.(players)))) /\
  (Permutation c.(players) c'.(players) ->
     total_player_deposit c = total_player_deposit c').
Proof.
  split.
  - apply u128_sum_exact.
  - intros P. apply u128_sum_perm. unfold values_as_vector.
    now apply Permutation_map.
Qed.

(** [X12] Ledger sums under overwrite: an accepted [play a] raises the sum
    of player balances by [a] minus the caller's previous balance (0 for
    a new player), and a successful [invest a] does the same to the sum
    of investor balances. *)
Theorem ledger_sum_after_insert (a : N) (e : Env) (w : World) :
  (w.(contract).(min_deposit) <= a ->
   list_sum (values_as_vector (snd (play a e w)).(contract).(players)) +
     um_old w.(contract).(players) e.(env_predecessor_account_id) =
   list_sum (values_as_vector w.(contract).(players)) + a) /\
  (fst (invest a e w) = Ok tt ->
   list_sum (values_as_vector (snd (invest a e w)).(contract).(investors)) +
     um_old w.(contract).(investors) e.(env_predecessor_account_id) =
   list_sum (values_as_vector w.(contract).(investors)) + a).
Proof.
  split.
  - intros H. apply N.leb_le in H. rewrite play_eq. cbv zeta. rewrite H. cbn.
    apply um_insert_sum.
  - rewrite invest_eq. cbv zeta.
    destruct (u128_add (total_stake (contract w)) a); cbn; [|discriminate].
    intros _. apply um_insert_sum.
Qed.

End Contract_methods.

(** ** Concrete runs: witnesses and counterexamples *)

Lemma invest_sequence_total_stake_witness :
  (snd (run_invests true calls_AB fresh_world)).(contract).(total_stake) =
  list_sum (map snd calls_AB).
Proof.
  exact (proj1 (invest_sequence_total_stake true calls_AB fresh_world
    (snd (run_invests true calls_AB fresh_world)) eq_refl eq_refl
    ltac:(vm_compute; reflexivity) ltac:(vm_compute; reflexivity))).
Defined.

(** [C1] fails: the same account investing 100 twice leaves
    [total_stake = 200] while [total_investment] is 100 (in both builds). *)
Lemma invest_twice_stake_differs :
  fst (run_invests true calls_AA fresh_world) = Ok tt /\
  (snd (run_invests true calls_AA fresh_world)).(contract).(total_stake) = 200 /\
  total_investment true (snd (run_invests true calls_AA fresh_world)).(contract) = Ok 100 /\
  fst (run_invests false calls_AA fresh_world) = Ok tt /\
  (snd (run_invests false calls_AA fresh_world)).(contract).(total_stake) = 200 /\
  total_investment false (snd (run_invests false calls_AA fresh_world)).(contract) = Ok 100.
Proof. vm_compute. repeat split. Qed.

Lemma play_min_deposit_witness :
  fst (play 500000 env_A fresh_world) = Panic "Deposit too low" /\
  fst (play 2000000 env_A fresh_world) = Ok tt.
Proof.
  split.
  - exact (proj1 (proj1 (play_min_deposit 500000 env_A fresh_world)
             ltac:(vm_compute; reflexivity))).
  - exact (proj1 (proj2 (play_min_deposit 2000000 env_A fresh_world)
             ltac:(vm_compute; congruence))).
Defined.

Lemma select_winner_no_players_witness :
  select_winner sample_gen_range env_A fresh_world =
  (Panic "No players to select a winner from", fresh_world).
Proof.
  exact (select_winner_no_players sample_gen_range env_A fresh_world eq_refl).
Defined.

Lemma select_winner_deterministic_witness :
  fst (select_winner sample_gen_range env_A
         (snd (play 2000000 env_A fresh_world))) =
  fst (select_winner sample_gen_range env_B
         (snd (play 2000000 env_A fresh_world))).
Proof.
  exact (select_winner_deterministic sample_gen_range env_A env_B
    (snd (play 2000000 env_A fresh_world))
    (snd (play 2000000 env_A fresh_world)) eq_refl eq_refl).
Defined.

(** [C5] fails: without overflow checks, [invest 1] on a full stake
    succeeds and stores the wrapped stake [0]. *)
Lemma invest_wraps_without_overflow_checks :
  fst (invest false 1 env_A stake_full_world) = Ok tt /\
  (snd (invest false 1 env_A stake_full_world)).(contract).(total_stake) = 0.
Proof. vm_compute. split; reflexivity. Qed.

Lemma invest_overflow_witness :
  fst (invest true 1 env_A stake_full_world) =
  Panic "attempt to add with overflow".
Proof.
  exact (proj1 (proj1 (invest_overflow true 1 env_A stake_full_world
    ltac:(vm_compute; congruence)) eq_refl)).
Defined.

Lemma simulate_profit_floor_witness :
  simulate_profit (set_total_stake fresh_world.(contract) 955) = 95.
Proof.
  exact (proj2 (simulate_profit_floor (set_total_stake fresh_world.(contract) 955))
    eq_refl).
Defined.

(** [C7] fails: without overflow checks, two investments of 2^127 are
    accepted and [total_investment] returns 0, not the sum 2^128. *)
Lemma total_investment_wraps :
  fst (run_invests false calls_half_half fresh_world) = Ok tt /\
  list_sum (values_as_vector
    (snd (run_invests false calls_half_half fresh_world)).(contract).(investors))
    = 2 ^ 128 /\
  total_investment false
    (snd (run_invests false calls_half_half fresh_world)).(contract) = Ok 0.
Proof. vm_compute. repeat split. Qed.

Lemma total_investment_sum_witness :
  total_investment true (snd (run_invests true calls_AB fresh_world)).(contract) =
  Ok (list_sum (values_as_vector
        (snd (run_invests true calls_AB fresh_world)).(contract).(investors))) /\
  total_investment true (snd (run_invests false calls_half_half fresh_world)).(contract) =
  Panic "attempt to add with overflow".
Proof.
  split.
  - exact (proj1 (total_investment_sum true
      (snd (run_invests true calls_AB fresh_world)).(contract)
      (snd (run_invests true calls_AB fresh_world)).(contract))
      ltac:(vm_compute; reflexivity)).
  - exact (proj1 (proj2 (proj2 (proj2 (total_investment_sum true
      (snd (run_invests false calls_half_half fresh_world)).(contract)
      (snd (run_invests false calls_half_half fresh_world)).(contract)))))
      eq_refl ltac:(vm_compute; congruence)).
Defined.

Lemma seed_array_padding_witness :
  nth_error (seed_array_of [Byte.x05; Byte.x07]) 1 = Some Byte.x07 /\
  nth_error (seed_array_of [Byte.x05; Byte.x07]) 5 = Some Byte.x00.
Proof.
  split.
  - exact (proj1 (proj2 (seed_array_padding sample_gen_range [Byte.x05; Byte.x07]))
             1%nat ltac:(vm_compute; lia)).
  - exact (proj1 (proj2 (proj2 (seed_array_padding sample_gen_range
             [Byte.x05; Byte.x07]))) 5%nat ltac:(vm_compute; lia)).
Defined.

(** [C9] fails: [invest 0] on a new contract succeeds and stores the
    balance 0 for the caller. *)
Lemma invest_zero_stored :
  fst (invest true 0 env_A fresh_world) = Ok tt /\
  (snd (invest true 0 env_A fresh_world)).(contract).(investors) =
    [("alice.testnet"%string, 0)].
Proof. vm_compute. split; reflexivity. Qed.

Lemma invest_zero_accepted_witness :
  fst (invest true 0 env_A fresh_world) = Ok tt.
Proof.
  exact (proj1 (invest_zero_accepted true env_A fresh_world
    ltac:(vm_compute; reflexivity))).
Defined.

Lemma invest_success_effect_witness :
  (snd (invest true 100 env_A fresh_world)).(contract).(total_stake) = 100.
Proof.
  exact (proj1 (proj2 (proj2 (invest_success_effect true 100 env_A fresh_world
    ltac:(vm_compute; reflexivity))))).
Defined.

Lemma invest_panic_no_stake_call_witness :
  (snd (invest true 1 env_A stake_full_world)).(host_log) =
  stake_full_world.(host_log) ++ [HC_predecessor_account_id].
Proof.
  exact (invest_panic_no_stake_call true 1 env_A stake_full_world
    "attempt to add with overflow" ltac:(vm_compute; reflexivity)).
Defined.

Lemma um_insert_key_order_witness :
  keys_as_vector (um_insert [("alice.testnet"%string, 5)] "bob.testnet"%string 7) =
  ["alice.testnet"%string; "bob.testnet"%string].
Proof.
  exact (proj2 (um_insert_key_order [("alice.testnet"%string, 5)]
    "bob.testnet"%string 7) ltac:(vm_compute; intros [H|[]]; discriminate H)).
Defined.

Lemma ledger_keys_distinct_witness :
  NoDup (keys_as_vector (snd (play 2000000 env_A fresh_world)).(contract).(players)).
Proof.
  exact (proj2 (proj2 (ledger_keys_distinct true 2000000 env_A fresh_world
    ltac:(vm_compute; constructor) ltac:(vm_compute; constructor)))).
Defined.

Lemma checked_invests_exact_stake_witness :
  (snd (run_invests true calls_AA fresh_world)).(contract).(total_stake) =
  list_sum (map snd calls_AA).
Proof.
  exact (checked_invests_exact_stake true calls_AA fresh_world
    (snd (run_invests true calls_AA fresh_world)) eq_refl eq_refl
    ltac:(vm_compute; reflexivity)).
Defined.

Lemma play_overwrites_witness :
  (snd (play 3000000 env_A (snd (play 2000000 env_A fresh_world)))).(contract) =
  (snd (play 3000000 env_A fresh_world)).(contract).
Proof.
  exact (play_overwrites 2000000 3000000 env_A fresh_world
    ltac:(vm_compute; congruence)).
Defined.

Lemma select_winner_returns_player_witness :
  exists x,
    fst (select_winner sample_gen_range env_A
           (snd (play 2000000 env_B (snd (play 2000000 env_A fresh_world))))) = Ok x /\
    In x (keys_as_vector
           (snd (play 2000000 env_B (snd (play 2000000 env_A fresh_world)))).(contract).(players)).
Proof.
  exact (select_winner_returns_player sample_gen_range env_A
    (snd (play 2000000 env_B (snd (play 2000000 env_A fresh_world))))
    ltac:(vm_compute; discriminate) ltac:(vm_compute; lia)).
Defined.

Lemma total_player_deposit_sum_witness :
  total_player_deposit true (snd (play 2000000 env_A fresh_world)).(contract) =
  Ok 2000000.
Proof.
  exact (proj1 (total_player_deposit_sum true
    (snd (play 2000000 env_A fresh_world)).(contract)
    (snd (play 2000000 env_A fresh_world)).(contract))
    ltac:(vm_compute; reflexivity)).
Defined.

Lemma ledger_sum_after_insert_witness :
  list_sum (values_as_vector
    (snd (play 3000000 env_A (snd (play 2000000 env_A fresh_world)))).(contract).(players)) +
    um_old (snd (play 2000000 env_A fresh_world)).(contract).(players)
      env_A.(env_predecessor_account_id) =
  list_sum (values_as_vector
    (snd (play 2000000 env_A fresh_world)).(contract).(players)) + 3000000.
Proof.
  exact (proj1 (ledger_sum_after_insert true 3000000 env_A
    (snd (play 2000000 env_A fresh_world))) ltac:(vm_compute; congruence)).
Defined.
